(** * The in-memory item registry of [main.py]

    A shallow embedding of the five request handlers of [main.py]
    ([create_item], [get_all_items], [get_item], [update_item],
    [delete_item]) over the module-level list [items_db], followed by the
    properties of the registry contract.

    Conventions of the embedding:
    - a Python [int] is a [Z]; a [str] is a [string]; a [float] is a binary64
      [float], which the handlers only store and hand back;
      [Optional[str]] is [option string];
    - the global [items_db] is threaded explicitly: a handler takes the list
      before the call and yields its outcome together with the list after it;
    - [raise] is an outcome of the handler, next to [return]. *)

From Stdlib Require Import ZArith.
From Stdlib Require Import Floats.PrimFloat.
From stdpp Require Import base option list strings gmap.

Local Open Scope string_scope.
Local Open Scope Z_scope.
Local Open Scope list_scope.

(** ** Data model *)

(** [class Item(BaseModel)]: the validated request body. *)
Module Item.
Record t : Type := mk {
  id : Z;
  name : string;
  price : float;
  description : option string
}.
End Item.

(** What [items_db] holds: the dictionary [item.dict()] built from a model
    instance, with exactly the keys ["id"], ["name"], ["price"] and
    ["description"]. *)
Module Row.
Record t : Type := mk {
  id : Z;
  name : string;
  price : float;
  description : option string
}.
End Row.

(** [item.dict()] *)
Definition dict (item : Item.t) : Row.t :=
  Row.mk (Item.id item) (Item.name item) (Item.price item)
         (Item.description item).

(** The exceptions a handler can end with: the [HTTPException]s it raises
    itself, and the [IndexError] of an indexed store or [del] outside the
    list. *)
Inductive exn : Type :=
| HTTPException (status_code : Z) (detail : string)
| IndexError.

Inductive result (A : Type) : Type :=
| Return (a : A)
| Raise (e : exn).
Arguments Return {A} a.
Arguments Raise {A} e.

(** The two error conditions of the contract, as the handlers raise them. *)
Definition DuplicateKey : exn :=
  HTTPException 400 "Item with this ID already exists".
Definition NotFound : exn :=
  HTTPException 404 "Item not found".

(** ** List primitives used by the handlers *)

(** [l[idx] = v]: raises [IndexError] (here [None]) outside the list. *)
Definition setitem {A} (l : list A) (idx : nat) (v : A) : option (list A) :=
  if decide (idx < length l)%nat then Some (<[idx := v]> l) else None.

(** [del l[idx]]: raises [IndexError] (here [None]) outside the list. *)
Definition delitem {A} (l : list A) (idx : nat) : option (list A) :=
  if decide (idx < length l)%nat then Some (delete idx l) else None.

(** The loop shared by all four scanning handlers,
    [for idx, item in enumerate(items_db): if item["id"] == item_id: ...]:
    the position and the row at which the body of the [if] is entered, if it
    ever is. [idx] is the counter of [enumerate], [rest] what is left to
    visit. *)
Fixpoint scan (item_id : Z) (idx : nat) (rest : list Row.t)
  : option (nat * Row.t) :=
  match rest with
  | [] => None
  | item :: rest' =>
      if Row.id item =? item_id then Some (idx, item)
      else scan item_id (S idx) rest'
  end.

(** ** The handlers *)

Definition handler (A : Type) : Type := list Row.t -> result A * list Row.t.

(** [POST /items/] *)
Definition create_item (item : Item.t) : handler Item.t := fun items_db =>
  match scan (Item.id item) 0 items_db with
  | Some _ => (Raise DuplicateKey, items_db)
  | None => (Return item, items_db ++ [dict item])
  end.

(** [GET /items/] *)
Definition get_all_items : handler (list Row.t) := fun items_db =>
  (Return items_db, items_db).

(** [GET /items/{item_id}] *)
Definition get_item (item_id : Z) : handler Row.t := fun items_db =>
  match scan item_id 0 items_db with
  | Some (_, item) => (Return item, items_db)
  | None => (Raise NotFound, items_db)
  end.

(** [PUT /items/{item_id}] *)
Definition update_item (item_id : Z) (updated_item : Item.t)
  : handler Item.t := fun items_db =>
  match scan item_id 0 items_db with
  | Some (idx, _) =>
      match setitem items_db idx (dict updated_item) with
      | Some items_db' => (Return updated_item, items_db')
      | None => (Raise IndexError, items_db)
      end
  | None => (Raise NotFound, items_db)
  end.

(** The body of the successful [DELETE] response. *)
Definition deleted_message : gmap string string :=
  {[ "message" := "Item deleted successfully" ]}.

(** [DELETE /items/{item_id}] *)
Definition delete_item (item_id : Z) : handler (gmap string string) :=
  fun items_db =>
  match scan item_id 0 items_db with
  | Some (idx, _) =>
      match delitem items_db idx with
      | Some items_db' => (Return deleted_message, items_db')
      | None => (Raise IndexError, items_db)
      end
  | None => (Raise NotFound, items_db)
  end.

(** ** Sequences of requests *)

(** The three requests that can change [items_db]. *)
Inductive request : Type :=
| Create (item : Item.t)
| Update (item_id : Z) (updated_item : Item.t)
| Delete (item_id : Z).

(** [items_db] after a request has been served, whatever its outcome. *)
Definition serve (req : request) (items_db : list Row.t) : list Row.t :=
  match req with
  | Create item => (create_item item items_db).2
  | Update item_id updated_item =>
      (update_item item_id updated_item items_db).2
  | Delete item_id => (delete_item item_id items_db).2
  end.

(** The states of [items_db] that a running service can be in: it starts as
    [items_db = []] and changes only through the handlers. *)
Inductive reachable : list Row.t -> Prop :=
| reachable_empty : reachable []
| reachable_serve req items_db :
    reachable items_db -> reachable (serve req items_db).

(** [items_db] after a sequence of requests, served in order. *)
Definition run (reqs : list request) (items_db : list Row.t) : list Row.t :=
  foldl (fun db req => serve req db) items_db reqs.

(** A run of [POST /items/] requests, one per element of [items]: the
    outcomes in call order, and the final [items_db]. *)
Fixpoint create_all (items : list Item.t) (items_db : list Row.t)
  : list (result Item.t) * list Row.t :=
  match items with
  | [] => ([], items_db)
  | item :: items' =>
      let '(out, items_db') := create_item item items_db in
      let '(outs, items_db'') := create_all items' items_db' in
      (out :: outs, items_db'')
  end.

(** ** Predicates of the contract *)

(** No row of [rows] carries [item_id]. *)
Definition no_match (item_id : Z) (rows : list Row.t) : Prop :=
  Forall (fun r => Row.id r <> item_id) rows.

(** Some row of [rows] carries [item_id]. *)
Definition stored (item_id : Z) (rows : list Row.t) : Prop :=
  exists r, r ∈ rows /\ Row.id r = item_id.

(** At most one stored row per [id] value: two positions holding the same
    [id] are the same position. *)
Definition unique_ids (rows : list Row.t) : Prop :=
  forall i j ri rj,
    rows !! i = Some ri -> rows !! j = Some rj ->
    Row.id ri = Row.id rj -> i = j.

(** A stored row and a model instance agree on all four fields. *)
Definition same_fields (row : Row.t) (item : Item.t) : Prop :=
  Row.id row = Item.id item /\
  Row.name row = Item.name item /\
  Row.price row = Item.price item /\
  Row.description row = Item.description item.

(** A request that keeps the key of what it stores: the body of a [PUT]
    carries the [id] of its path. *)
Definition keyed (req : request) : Prop :=
  match req with
  | Update item_id updated_item => Item.id updated_item = item_id
  | _ => True
  end.

(** ** Sample data (the scenario of the contract) *)

(** A decimal literal denotes the nearest binary64 value, as it does in
    Python. *)
Set Warnings "-inexact-float".

Definition pen : Item.t := Item.mk 1 "Pen" 1.5%float None.
Definition book : Item.t := Item.mk 2 "Book" 9.99%float (Some "novel").
Definition rekeyed_book : Item.t := Item.mk 1 "Book" 12.0%float None.


(** The requests of the run that ends with two rows under one [id]. *)
Definition rekeying_run : list request :=
  [Create pen; Create book; Update 2 rekeyed_book].

(** ** Vocabulary for sequences of requests *)

(** The number of [POST /items/] requests in a sequence. *)
Fixpoint creates (reqs : list request) : nat :=
  match reqs with
  | [] => 0
  | Create _ :: reqs' => S (creates reqs')
  | _ :: reqs' => creates reqs'
  end.

(** The ids a request names: the [id] of a posted body, the path [item_id]
    of a [PUT] and the [id] of its body, the path [item_id] of a [DELETE]. *)
Definition names_id (req : request) (j : Z) : Prop :=
  match req with
  | Create item => Item.id item = j
  | Update item_id updated_item => item_id = j \/ Item.id updated_item = j
  | Delete item_id => item_id = j
  end.

(** ** A sequence of requests that builds a given list *)

(** The model instance whose dictionary is [r]. *)
Definition item_of_row (r : Row.t) : Item.t :=
  Item.mk (Row.id r) (Row.name r) (Row.price r) (Row.description r).

(** An id above the ids of all of [rows]. *)
Definition fresh_base (rows : list Row.t) : Z :=
  1 + foldr (fun r m => Z.max (Row.id r) m) 0 rows.

(** [n] items with the consecutive ids [start], [start + 1], ... *)
Fixpoint placeholders (start : Z) (n : nat) : list Item.t :=
  match n with
  | O => []
  | S n' => Item.mk start "placeholder" 0%float None
            :: placeholders (start + 1) n'
  end.

(** One [PUT] per row of [rows]: the path ids are [start], [start + 1], ...,
    the bodies are the rows. *)
Fixpoint updates_from (start : Z) (rows : list Row.t) : list request :=
  match rows with
  | [] => []
  | r :: rows' => Update start (item_of_row r) :: updates_from (start + 1) rows'
  end.

(** Post as many placeholders as [rows] has rows, under fresh ids, then
    overwrite them one by one with the rows. *)
Definition rebuild (rows : list Row.t) : list request :=
  (Create <$> placeholders (fresh_base rows) (length rows))
  ++ updates_from (fresh_base rows) rows.

(** * Properties *)

(** ** The scenario, evaluated *)

Example ex_create :
  create_item pen [] = (Return pen, [Row.mk 1 "Pen" 1.5%float None]).
Proof. reflexivity. Qed.

Example ex_create_twice :
  create_item pen [dict pen] = (Raise DuplicateKey, [dict pen]).
Proof. reflexivity. Qed.

Example ex_get :
  get_item 2 [dict pen; dict book] = (Return (dict book), [dict pen; dict book]).
Proof. reflexivity. Qed.

Example ex_update :
  update_item 2 rekeyed_book [dict pen; dict book]
  = (Return rekeyed_book, [dict pen; dict rekeyed_book]).
Proof. reflexivity. Qed.

Example ex_delete :
  delete_item 1 [dict pen; dict book] = (Return deleted_message, [dict book]).
Proof. reflexivity. Qed.

(** ** The scanning loop *)

Section Scan.
Variable item_id : Z.

Lemma no_match_alt rows :
  no_match item_id rows <-> ~ stored item_id rows.
Proof.
  unfold no_match, stored. rewrite Forall_forall. split.
  - intros H (r & Hin & Hid). exact (H r Hin Hid).
  - intros H r Hin Hid. apply H. eauto.
Qed.

Lemma scan_None idx rest :
  scan item_id idx rest = None <-> no_match item_id rest.
Proof.
  unfold no_match. revert idx.
  induction rest as [|r rest IH]; intros idx; simpl.
  - split; [constructor | reflexivity].
  - destruct (Z.eqb_spec (Row.id r) item_id) as [Heq|Hne].
    + split; [discriminate|]. intros H. inversion H; subst. contradiction.
    + rewrite IH. split.
      * intros H. constructor; assumption.
      * intros H. inversion H; assumption.
Qed.

Lemma scan_first idx pre r post :
  no_match item_id pre -> Row.id r = item_id ->
  scan item_id idx (pre ++ r :: post) = Some ((idx + length pre)%nat, r).
Proof.
  intros Hpre Hr. revert idx.
  induction Hpre as [|x pre Hx _ IH]; intros idx; simpl.
  - rewrite (proj2 (Z.eqb_eq _ _) Hr). do 2 f_equal. lia.
  - rewrite (proj2 (Z.eqb_neq _ _) Hx), IH. do 2 f_equal. lia.
Qed.

Lemma scan_Some idx rest i r :
  scan item_id idx rest = Some (i, r) ->
  exists pre post,
    rest = pre ++ r :: post /\ no_match item_id pre /\
    Row.id r = item_id /\ i = (idx + length pre)%nat.
Proof.
  revert idx. induction rest as [|x rest IH]; intros idx; simpl.
  - discriminate.
  - destruct (Z.eqb_spec (Row.id x) item_id) as [Heq|Hne].
    + intros [= <- <-]. exists [], rest. simpl.
      repeat split; [constructor | assumption | lia].
    + intros H. destruct (IH _ H) as (pre & post & -> & Hpre & Hr & ->).
      exists (x :: pre), post. simpl.
      repeat split; [constructor; assumption | assumption | lia].
Qed.

(** The loop enters its [if] exactly when a row carries [item_id]. *)
Lemma scan_stored idx rest :
  stored item_id rest -> exists i r, scan item_id idx rest = Some (i, r).
Proof.
  intros Hs. destruct (scan item_id idx rest) as [[i r]|] eqn:E; [eauto|].
  apply scan_None, no_match_alt in E. contradiction.
Qed.

(** Every row of a list either is the first to carry [item_id], splitting
    the list around it, or none does. *)
Lemma first_match_split rows :
  stored item_id rows ->
  exists pre r post,
    rows = pre ++ r :: post /\ no_match item_id pre /\ Row.id r = item_id.
Proof.
  intros Hs. destruct (scan_stored 0 rows Hs) as (i & r & E).
  destruct (scan_Some _ _ _ _ E) as (pre & post & ? & ? & ? & _).
  exists pre, r, post. auto.
Qed.
End Scan.

(** The indexed store and [del] at the position the loop stopped at. *)
Lemma setitem_middle {A} (pre post : list A) (x y : A) :
  setitem (pre ++ x :: post) (length pre) y = Some (pre ++ y :: post).
Proof.
  unfold setitem. rewrite decide_True.
  - f_equal. replace (length pre) with (length pre + 0)%nat at 1 by lia.
    by rewrite insert_app_r.
  - rewrite length_app. simpl. lia.
Qed.

Lemma delitem_middle {A} (pre post : list A) (x : A) :
  delitem (pre ++ x :: post) (length pre) = Some (pre ++ post).
Proof.
  unfold delitem. rewrite decide_True.
  - by rewrite delete_middle.
  - rewrite length_app. simpl. lia.
Qed.

(** ** What each handler does around the first match *)

Section FirstMatch.
Variables (item_id : Z) (pre post : list Row.t) (r : Row.t).
Hypothesis Hpre : no_match item_id pre.
Hypothesis Hr : Row.id r = item_id.

Lemma get_item_first :
  get_item item_id (pre ++ r :: post) = (Return r, pre ++ r :: post).
Proof. unfold get_item. by rewrite (scan_first _ _ _ _ _ Hpre Hr). Qed.

Lemma update_item_first updated_item :
  update_item item_id updated_item (pre ++ r :: post)
  = (Return updated_item, pre ++ dict updated_item :: post).
Proof.
  unfold update_item. rewrite (scan_first _ _ _ _ _ Hpre Hr). simpl.
  by rewrite setitem_middle.
Qed.

Lemma delete_item_first :
  delete_item item_id (pre ++ r :: post)
  = (Return deleted_message, pre ++ post).
Proof.
  unfold delete_item. rewrite (scan_first _ _ _ _ _ Hpre Hr). simpl.
  by rewrite delitem_middle.
Qed.
End FirstMatch.

(** ** When no row matches *)

Section Absent.
Variables (item_id : Z) (items_db : list Row.t).
Hypothesis Habs : no_match item_id items_db.

Lemma get_item_absent :
  get_item item_id items_db = (Raise NotFound, items_db).
Proof. unfold get_item. by rewrite (proj2 (scan_None _ 0%nat _) Habs). Qed.

Lemma update_item_absent updated_item :
  update_item item_id updated_item items_db = (Raise NotFound, items_db).
Proof. unfold update_item. by rewrite (proj2 (scan_None _ 0%nat _) Habs). Qed.

Lemma delete_item_absent :
  delete_item item_id items_db = (Raise NotFound, items_db).
Proof. unfold delete_item. by rewrite (proj2 (scan_None _ 0%nat _) Habs). Qed.
End Absent.

Lemma create_item_fresh item items_db :
  no_match (Item.id item) items_db ->
  create_item item items_db = (Return item, items_db ++ [dict item]).
Proof.
  intros H. unfold create_item. by rewrite (proj2 (scan_None _ 0%nat _) H).
Qed.

Lemma create_item_taken item items_db :
  stored (Item.id item) items_db ->
  create_item item items_db = (Raise DuplicateKey, items_db).
Proof.
  intros H. unfold create_item.
  by destruct (scan_stored _ 0%nat _ H) as (i & r & ->).
Qed.

(** Whatever [item_id] is, the loop either runs off the end of the list or
    stops at the first row that carries it. *)
Lemma scan_cases item_id rows :
  no_match item_id rows \/
  exists pre r post,
    rows = pre ++ r :: post /\ no_match item_id pre /\ Row.id r = item_id.
Proof.
  destruct (scan item_id 0 rows) as [[i r]|] eqn:E.
  - right. destruct (scan_Some _ _ _ _ _ E) as (pre & post & ? & ? & ? & _).
    exists pre, r, post. auto.
  - left. by apply (scan_None item_id 0%nat).
Qed.

Ltac first_or_absent item_id rows :=
  let Habs := fresh "Habs" in
  let pre := fresh "pre" in
  let r := fresh "r" in
  let post := fresh "post" in
  let Hpre := fresh "Hpre" in
  let Hr := fresh "Hr" in
  destruct (scan_cases item_id rows)
    as [Habs | (pre & r & post & -> & Hpre & Hr)].

(** The position [enumerate] hands to the indexed store and to [del] lies
    inside the list: neither handler ends with an [IndexError]. *)
Lemma update_item_no_IndexError item_id updated_item items_db :
  (update_item item_id updated_item items_db).1 <> Raise IndexError.
Proof.
  first_or_absent item_id items_db.
  - by rewrite update_item_absent.
  - by rewrite update_item_first.
Qed.

Lemma delete_item_no_IndexError item_id items_db :
  (delete_item item_id items_db).1 <> Raise IndexError.
Proof.
  first_or_absent item_id items_db.
  - by rewrite delete_item_absent.
  - by rewrite delete_item_first.
Qed.

(** ** Field-wise equality of a stored row and a model instance *)

Lemma same_fields_dict row item : same_fields row item <-> row = dict item.
Proof.
  split.
  - destruct row, item. unfold same_fields, dict. simpl.
    intros (-> & -> & -> & ->). reflexivity.
  - intros ->. by repeat split.
Qed.

(** ** Uniqueness of ids *)

Lemma unique_ids_NoDup rows : unique_ids rows <-> NoDup (Row.id <$> rows).
Proof.
  rewrite NoDup_alt. unfold unique_ids. split.
  - intros H i j x Hi Hj. rewrite list_lookup_fmap in Hi, Hj.
    destruct (rows !! i) as [ri|] eqn:Ei; [|discriminate].
    destruct (rows !! j) as [rj|] eqn:Ej; [|discriminate].
    simpl in *. apply (H i j ri rj); congruence.
  - intros H i j ri rj Hi Hj Hid. apply (H i j (Row.id ri)).
    + by rewrite list_lookup_fmap, Hi.
    + by rewrite list_lookup_fmap, Hj, Hid.
Qed.

Lemma no_match_ids item_id rows :
  no_match item_id rows <-> item_id ∉ (Row.id <$> rows).
Proof.
  unfold no_match. rewrite Forall_forall, list_elem_of_fmap. split.
  - intros H (r & -> & Hin). by apply (H r).
  - intros H r Hin Heq. apply H. exists r. auto.
Qed.

Lemma no_match_app item_id l k :
  no_match item_id (l ++ k) <-> no_match item_id l /\ no_match item_id k.
Proof. apply Forall_app. Qed.

Lemma unique_ids_nil : unique_ids [].
Proof. apply unique_ids_NoDup. constructor. Qed.

Lemma unique_ids_create item items_db :
  unique_ids items_db -> unique_ids (create_item item items_db).2.
Proof.
  intros Hu. first_or_absent (Item.id item) items_db.
  - rewrite create_item_fresh by assumption. simpl.
    apply unique_ids_NoDup. rewrite fmap_app. apply NoDup_app.
    split; [by apply unique_ids_NoDup|]. split.
    + intros x Hx. simpl. rewrite list_elem_of_singleton. intros ->.
      by apply no_match_ids in Habs.
    + apply NoDup_singleton.
  - rewrite create_item_taken; [assumption|].
    exists r. split; [|assumption]. apply elem_of_app. right. by left.
Qed.

Lemma unique_ids_update item_id updated_item items_db :
  Item.id updated_item = item_id ->
  unique_ids items_db ->
  unique_ids (update_item item_id updated_item items_db).2.
Proof.
  intros Hk Hu. first_or_absent item_id items_db.
  - by rewrite update_item_absent.
  - rewrite update_item_first by assumption. simpl.
    apply unique_ids_NoDup. apply unique_ids_NoDup in Hu.
    rewrite fmap_app in *. rewrite fmap_cons in *.
    replace (Row.id (dict updated_item)) with (Row.id r); [assumption|].
    simpl. congruence.
Qed.

Lemma unique_ids_delete item_id items_db :
  unique_ids items_db -> unique_ids (delete_item item_id items_db).2.
Proof.
  intros Hu. first_or_absent item_id items_db.
  - by rewrite delete_item_absent.
  - rewrite delete_item_first by assumption. simpl.
    apply unique_ids_NoDup. apply unique_ids_NoDup in Hu.
    rewrite fmap_app in *. rewrite fmap_cons in Hu.
    apply NoDup_app in Hu as (H1 & H2 & H3). apply NoDup_cons in H3 as [_ H3].
    apply NoDup_app. repeat split; [assumption| |assumption].
    intros x Hx Hin. apply (H2 x Hx). by right.
Qed.

(** A request that keeps keys keeps the ids unique. *)
Lemma unique_ids_serve req items_db :
  keyed req -> unique_ids items_db -> unique_ids (serve req items_db).
Proof.
  destruct req; simpl; intros Hk Hu.
  - by apply unique_ids_create.
  - by apply unique_ids_update.
  - by apply unique_ids_delete.
Qed.


Lemma run_snoc reqs req items_db :
  run (reqs ++ [req]) items_db = serve req (run reqs items_db).
Proof. unfold run. by rewrite foldl_app. Qed.

Lemma reachable_run items_db :
  reachable items_db <-> exists reqs, items_db = run reqs [].
Proof.
  split.
  - induction 1 as [|req db _ [reqs ->]].
    + by exists [].
    + exists (reqs ++ [req]). by rewrite run_snoc.
  - intros [reqs ->]. induction reqs as [|req reqs IH] using rev_ind.
    + constructor.
    + rewrite run_snoc. by constructor.
Qed.

(** As long as every [PUT] carries the [id] of its path, the ids stay
    unique. *)
Lemma unique_ids_run_keyed reqs :
  Forall keyed reqs -> unique_ids (run reqs []).
Proof.
  induction reqs as [|req reqs IH] using rev_ind; intros Hk.
  - apply unique_ids_nil.
  - rewrite run_snoc. apply Forall_app in Hk as [Hk1 Hk2].
    apply unique_ids_serve; [by inversion Hk2 | auto].
Qed.

(** ** Deleting *)

(** A successful [DELETE] shortens the list by one, in every state. *)
Lemma delete_item_length item_id items_db out items_db' :
  delete_item item_id items_db = (Return out, items_db') ->
  S (length items_db') = length items_db.
Proof.
  first_or_absent item_id items_db.
  - by rewrite delete_item_absent.
  - rewrite delete_item_first by assumption. intros [= _ <-].
    rewrite !length_app. simpl. lia.
Qed.

(** With unique ids, the [id] of a deleted row is gone. *)
Lemma delete_then_get_unique item_id items_db out items_db' :
  unique_ids items_db ->
  delete_item item_id items_db = (Return out, items_db') ->
  get_item item_id items_db' = (Raise NotFound, items_db').
Proof.
  intros Hu. first_or_absent item_id items_db.
  - by rewrite delete_item_absent.
  - rewrite delete_item_first by assumption. intros [= _ <-].
    apply get_item_absent, no_match_app. split; [assumption|].
    apply unique_ids_NoDup in Hu. rewrite fmap_app, fmap_cons in Hu.
    apply NoDup_app in Hu as (_ & _ & H3). apply NoDup_cons in H3 as [H3 _].
    apply no_match_ids. congruence.
Qed.

(** ** Runs of creations *)

Lemma create_all_fresh items : forall items_db,
  NoDup (Item.id <$> items) ->
  Forall (fun item => no_match (Item.id item) items_db) items ->
  create_all items items_db
  = (Return <$> items, items_db ++ (dict <$> items)).
Proof.
  induction items as [|item items IH]; intros items_db Hnd Hfresh; simpl.
  - by rewrite app_nil_r.
  - rewrite fmap_cons in Hnd. apply NoDup_cons in Hnd as [Hhd Hnd].
    inversion Hfresh as [|? ? Hitem Hrest]; subst.
    rewrite create_item_fresh by assumption.
    rewrite IH; [by rewrite <- app_assoc | assumption |].
    apply Forall_forall. intros x Hx. apply no_match_app. split.
    + by apply (proj1 (Forall_forall _ _) Hrest).
    + constructor; [|constructor]. simpl. intros Heq. apply Hhd.
      apply list_elem_of_fmap. exists x. auto.
Qed.

(** * The properties of the contract *)

(** ** Uniqueness of ids *)


(** C1. The uniqueness invariant (at most one stored row per [id] in every
    state reachable from the empty list through creations, updates and
    deletions) does not hold of the handlers: creating items 1 and 2 and
    then sending [PUT /items/2] with a body whose [id] is 1 reaches a list
    whose two rows, at positions 0 and 1, both carry [id] 1. *)
Theorem C1_update_breaks_unique_ids :
  run rekeying_run [] = [dict pen; dict rekeyed_book] /\
  reachable (run rekeying_run []) /\
  Row.id (dict pen) = Row.id (dict rekeyed_book) /\
  ~ unique_ids (run rekeying_run []).
Proof.
  split; [reflexivity|]. split; [|split; [reflexivity|]].
  - apply reachable_run. by exists rekeying_run.
  - intros H. specialize (H 0%nat 1%nat (dict pen) (dict rekeyed_book)).
    discriminate H; reflexivity.
Qed.

(** ** Delete, then Get *)

(** C2. After a successful [DELETE /items/1] an immediate [GET /items/1]
    should end with NotFound. In the reachable state of [rekeying_run] it
    does not: the deletion succeeds and removes one row (the count goes from
    2 to 1), and the following lookup returns the second row that carried
    [id] 1. *)
Theorem C2_delete_then_get_finds_second_row :
  reachable (run rekeying_run []) /\
  delete_item 1 (run rekeying_run [])
  = (Return deleted_message, [dict rekeyed_book]) /\
  length (run rekeying_run []) = 2%nat /\
  get_item 1 [dict rekeyed_book]
  = (Return (dict rekeyed_book), [dict rekeyed_book]) /\
  get_item 1 [dict rekeyed_book] <> (Raise NotFound, [dict rekeyed_book]).
Proof.
  split; [apply reachable_run; by exists rekeying_run|].
  repeat split; try reflexivity. discriminate.
Qed.

(** ** Update, then Get *)

(** C3. When [update_item item_id X] succeeds it returns [X]; the row it
    stored over is the first one carrying [item_id], at a position [idx], and
    the list afterwards is the list before with [dict X] at [idx] (the whole
    row, including the [id] of [X], whatever it is). When the [id] of [X] is
    [item_id], a following [get_item item_id] returns a row with exactly the
    four field values of [X]. *)
Theorem C3_update_then_get item_id X (items_db : list Row.t) out items_db' :
  update_item item_id X items_db = (Return out, items_db') ->
  out = X /\
  exists idx old,
    items_db !! idx = Some old /\ Row.id old = item_id /\
    (forall j r, (j < idx)%nat -> items_db !! j = Some r ->
                 Row.id r <> item_id) /\
    items_db' = <[idx := dict X]> items_db /\
    items_db' !! idx = Some (dict X) /\
    (Item.id X = item_id ->
     exists row, get_item item_id items_db' = (Return row, items_db') /\
                 same_fields row X).
Proof.
  first_or_absent item_id items_db.
  - by rewrite update_item_absent.
  - rewrite update_item_first by assumption. intros [= <- <-].
    split; [reflexivity|]. exists (length pre), r.
    split; [by rewrite list_lookup_middle|]. split; [assumption|].
    split; [|split; [|split]].
    + intros j x Hj Hx. rewrite lookup_app_l in Hx by assumption.
      apply (proj1 (Forall_forall _ _) Hpre), list_elem_of_lookup. eauto.
    + replace (length pre) with (length pre + 0)%nat at 1 by lia.
      by rewrite insert_app_r.
    + by rewrite list_lookup_middle.
    + intros Hk. exists (dict X). split; [|by apply same_fields_dict].
      apply get_item_first; [assumption | simpl; congruence].
Qed.

Lemma C3_update_then_get_witness :
  let X := Item.mk 2 "Book" 12.0%float None in
  X = X /\
  exists idx old,
    [dict pen; dict book] !! idx = Some old /\ Row.id old = 2 /\
    (forall j r, (j < idx)%nat -> [dict pen; dict book] !! j = Some r ->
                 Row.id r <> 2) /\
    [dict pen; dict X] = <[idx := dict X]> [dict pen; dict book] /\
    [dict pen; dict X] !! idx = Some (dict X) /\
    (Item.id X = 2 ->
     exists row, get_item 2 [dict pen; dict X]
                 = (Return row, [dict pen; dict X]) /\
                 same_fields row X).
Proof.
  intros X.
  apply (C3_update_then_get 2 X [dict pen; dict book] X [dict pen; dict X]).
  reflexivity.
Defined.

(** ** Create on a taken id *)

(** C4. In every state that holds a row with the [id] of the new item,
    [create_item] raises DuplicateKey (status 400) and [items_db] after the
    call is [items_db] before it. *)
Theorem C4_create_duplicate item (items_db : list Row.t) :
  stored (Item.id item) items_db ->
  create_item item items_db
  = (Raise (HTTPException 400 "Item with this ID already exists"), items_db).
Proof. apply create_item_taken. Qed.

Lemma C4_create_duplicate_witness :
  stored (Item.id pen) [dict book; dict pen] /\
  create_item pen [dict book; dict pen]
  = (Raise (HTTPException 400 "Item with this ID already exists"),
     [dict book; dict pen]).
Proof.
  assert (H : stored (Item.id pen) [dict book; dict pen]).
  { exists (dict pen). split; [|reflexivity]. right. left. }
  split; [exact H | exact (C4_create_duplicate pen _ H)].
Defined.

(** ** Listing *)

(** C5. Creating items with pairwise distinct ids, starting from the empty
    list, succeeds at every call, and [get_all_items] afterwards returns
    exactly the created items, in call order. [get_all_items] returns in
    every state (it never raises), and returns the empty list on the empty
    registry. *)
Theorem C5_list_after_creates (items : list Item.t) :
  NoDup (Item.id <$> items) ->
  (exists items_db,
     create_all items [] = (Return <$> items, items_db) /\
     get_all_items items_db = (Return (dict <$> items), items_db)) /\
  (forall items_db, get_all_items items_db = (Return items_db, items_db)) /\
  get_all_items [] = (Return [], []).
Proof.
  intros Hnd. split; [|split; reflexivity].
  exists (dict <$> items). split; [|reflexivity].
  rewrite create_all_fresh; [reflexivity | assumption |].
  apply Forall_forall. intros x _. constructor.
Qed.

Lemma C5_list_after_creates_witness :
  NoDup (Item.id <$> [book; pen]) /\
  (exists items_db,
     create_all [book; pen] [] = (Return <$> [book; pen], items_db) /\
     get_all_items items_db = (Return (dict <$> [book; pen]), items_db)).
Proof.
  assert (H : NoDup (Item.id <$> [book; pen])).
  { simpl. apply NoDup_cons. split.
    - rewrite list_elem_of_singleton. discriminate.
    - apply NoDup_singleton. }
  split; [exact H | exact (proj1 (C5_list_after_creates [book; pen] H))].
Defined.

(** ** Requests on an absent id *)

(** C6. In every state and for every [item_id] that no stored row carries,
    [get_item], [update_item] and [delete_item] each raise NotFound (status
    404), and [items_db] after the failed call is [items_db] before it. *)
Theorem C6_absent_id_not_found item_id (items_db : list Row.t) :
  no_match item_id items_db ->
  get_item item_id items_db
  = (Raise (HTTPException 404 "Item not found"), items_db) /\
  (forall X, update_item item_id X items_db
             = (Raise (HTTPException 404 "Item not found"), items_db)) /\
  delete_item item_id items_db
  = (Raise (HTTPException 404 "Item not found"), items_db).
Proof.
  intros H. split; [|split].
  - by apply get_item_absent.
  - intros X. by apply update_item_absent.
  - by apply delete_item_absent.
Qed.

Lemma C6_absent_id_not_found_witness :
  no_match 3 [dict pen; dict book] /\
  get_item 3 [dict pen; dict book]
  = (Raise (HTTPException 404 "Item not found"), [dict pen; dict book]) /\
  (forall X, update_item 3 X [dict pen; dict book]
             = (Raise (HTTPException 404 "Item not found"),
                [dict pen; dict book])) /\
  delete_item 3 [dict pen; dict book]
  = (Raise (HTTPException 404 "Item not found"), [dict pen; dict book]).
Proof.
  assert (H : no_match 3 [dict pen; dict book]).
  { repeat constructor; discriminate. }
  split; [exact H | exact (C6_absent_id_not_found 3 _ H)].
Defined.

(** ** Create, then Get *)

(** C7. In every state in which [create_item item] succeeds, a following
    [get_item] on the [id] of [item] returns a row that equals [item] in
    all four fields. *)
Theorem C7_create_then_get item (items_db : list Row.t) out items_db' :
  create_item item items_db = (Return out, items_db') ->
  exists row,
    get_item (Item.id item) items_db' = (Return row, items_db') /\
    Row.id row = Item.id item /\
    Row.name row = Item.name item /\
    Row.price row = Item.price item /\
    Row.description row = Item.description item.
Proof.
  unfold create_item.
  destruct (scan (Item.id item) 0 items_db) as [hit|] eqn:E; [discriminate|].
  intros [= _ <-]. apply scan_None in E.
  exists (dict item). split; [|by repeat split].
  by apply get_item_first.
Qed.

Lemma C7_create_then_get_witness :
  exists row,
    get_item (Item.id book) [dict pen; dict book]
    = (Return row, [dict pen; dict book]) /\
    Row.id row = Item.id book /\
    Row.name row = Item.name book /\
    Row.price row = Item.price book /\
    Row.description row = Item.description book.
Proof.
  apply (C7_create_then_get book [dict pen] book [dict pen; dict book]).
  reflexivity.
Defined.

(** ** Create on a fresh id *)

(** C8. In every state that holds no row with the [id] of the new item,
    [create_item] returns the item as it was given, [items_db] afterwards is
    [items_db] before with the row of the item appended at its end, and its
    length has grown by exactly one. *)
Theorem C8_create_appends item (items_db : list Row.t) :
  no_match (Item.id item) items_db ->
  create_item item items_db = (Return item, items_db ++ [dict item]) /\
  length (create_item item items_db).2 = S (length items_db).
Proof.
  intros H. rewrite create_item_fresh by assumption. split; [reflexivity|].
  simpl. rewrite length_app. simpl. lia.
Qed.

Lemma C8_create_appends_witness :
  no_match (Item.id book) [dict pen] /\
  create_item book [dict pen] = (Return book, [dict pen] ++ [dict book]) /\
  length (create_item book [dict pen]).2 = S (length [dict pen]).
Proof.
  assert (H : no_match (Item.id book) [dict pen]).
  { repeat constructor; discriminate. }
  split; [exact H | exact (C8_create_appends book _ H)].
Defined.

(** ** The acknowledgment of Delete *)

(** C9. In every state and for every [item_id] that some stored row
    carries, [delete_item] succeeds and returns exactly the dictionary with
    the one key ["message"] bound to ["Item deleted successfully"]. *)
Theorem C9_delete_acknowledgment item_id (items_db : list Row.t) :
  stored item_id items_db ->
  exists items_db',
    delete_item item_id items_db
    = (Return {[ "message" := "Item deleted successfully" ]}, items_db').
Proof.
  intros Hs.
  destruct (first_match_split _ _ Hs) as (pre & r & post & -> & Hpre & Hr).
  exists (pre ++ post). by apply delete_item_first.
Qed.

Lemma C9_delete_acknowledgment_witness :
  stored 2 [dict pen; dict book] /\
  exists items_db',
    delete_item 2 [dict pen; dict book]
    = (Return {[ "message" := "Item deleted successfully" ]}, items_db').
Proof.
  assert (H : stored 2 [dict pen; dict book]).
  { exists (dict book). split; [|reflexivity]. right. left. }
  split; [exact H | exact (C9_delete_acknowledgment 2 _ H)].
Defined.

(** ** First match and frame *)

(** C10. In every state, split around the first row [r] that carries
    [item_id] as [pre ++ r :: post] (no row of [pre] carries [item_id];
    [post] is arbitrary and may hold further rows with that [id]):
    [get_item] returns [r] and leaves the list as it is; [update_item]
    stores the new row in the place of [r] and leaves [pre] and [post] as
    they are; [delete_item] removes [r] and leaves [pre] and [post] as they
    are, in their order. *)
Theorem C10_first_match_frame item_id (pre post : list Row.t) (r : Row.t) :
  no_match item_id pre ->
  Row.id r = item_id ->
  get_item item_id (pre ++ r :: post) = (Return r, pre ++ r :: post) /\
  (forall X, update_item item_id X (pre ++ r :: post)
             = (Return X, pre ++ dict X :: post)) /\
  delete_item item_id (pre ++ r :: post)
  = (Return deleted_message, pre ++ post).
Proof.
  intros Hpre Hr. split; [|split].
  - by apply get_item_first.
  - intros X. by apply update_item_first.
  - by apply delete_item_first.
Qed.

Lemma C10_first_match_frame_witness :
  let db := [dict book] ++ dict pen :: [dict rekeyed_book] in
  get_item 1 db = (Return (dict pen), db) /\
  (forall X, update_item 1 X db
             = (Return X, [dict book] ++ dict X :: [dict rekeyed_book])) /\
  delete_item 1 db
  = (Return deleted_message, [dict book] ++ [dict rekeyed_book]).
Proof.
  apply (C10_first_match_frame 1 [dict book] [dict rekeyed_book] (dict pen)).
  - repeat constructor; discriminate.
  - reflexivity.
Defined.

(** * Further properties of the handlers *)

(** ** The row the loop stops at *)

Lemma scan_app item_id idx l1 l2 :
  scan item_id idx (l1 ++ l2)
  = match scan item_id idx l1 with
    | Some hit => Some hit
    | None => scan item_id (idx + length l1)%nat l2
    end.
Proof.
  revert idx. induction l1 as [|x l1 IH]; intros idx; simpl.
  - f_equal. lia.
  - destruct (Row.id x =? item_id); [reflexivity|].
    rewrite IH. destruct (scan item_id (S idx) l1); [reflexivity|].
    f_equal. lia.
Qed.

(** The row does not depend on where [enumerate] starts counting. *)
Lemma scan_row_shift item_id idx idx' rest :
  snd <$> scan item_id idx rest = snd <$> scan item_id idx' rest.
Proof.
  revert idx idx'. induction rest as [|x rest IH]; intros idx idx'; simpl.
  - reflexivity.
  - destruct (Row.id x =? item_id); [reflexivity | apply IH].
Qed.

Lemma get_item_outcome item_id items_db :
  (get_item item_id items_db).1
  = match snd <$> scan item_id 0 items_db with
    | Some r => Return r
    | None => Raise NotFound
    end.
Proof.
  unfold get_item. by destruct (scan item_id 0 items_db) as [[i r]|].
Qed.

(** A row with another [id] can be taken out of the list without changing
    what a lookup finds. *)
Lemma get_item_skip j pre r post :
  Row.id r <> j ->
  (get_item j (pre ++ r :: post)).1 = (get_item j (pre ++ post)).1.
Proof.
  intros Hne. rewrite !get_item_outcome, !scan_app.
  destruct (scan j 0 pre) as [hit|]; [reflexivity|]. simpl.
  rewrite (proj2 (Z.eqb_neq _ _) Hne).
  by rewrite (scan_row_shift j _ (0 + length pre)%nat).
Qed.

(** With unique ids, the rows before and after a row do not carry its id. *)
Lemma unique_ids_middle pre r post :
  unique_ids (pre ++ r :: post) ->
  no_match (Row.id r) pre /\ no_match (Row.id r) post.
Proof.
  intros Hu. apply unique_ids_NoDup in Hu.
  rewrite fmap_app, fmap_cons in Hu.
  apply NoDup_app in Hu as (_ & H2 & H3). apply NoDup_cons in H3 as [H3 _].
  split; apply no_match_ids; [|assumption].
  intros Hin. apply (H2 _ Hin). by left.
Qed.

Lemma stored_middle pre r post : stored (Row.id r) (pre ++ r :: post).
Proof. exists r. split; [|reflexivity]. apply elem_of_app. right. by left. Qed.

Lemma run_cons req reqs items_db :
  run (req :: reqs) items_db = run reqs (serve req items_db).
Proof. reflexivity. Qed.

(** ** How a handler can end *)

(** X1. Whatever the state and the arguments, [create_item] either returns
    or raises DuplicateKey, and [get_item], [update_item] and [delete_item]
    either return or raise NotFound; a call that raises leaves [items_db] as
    it was. No other exception comes out of a handler; in particular the
    indexed store of [update_item] and the [del] of [delete_item] never
    raise [IndexError]. *)
Theorem X1_outcomes item_id item (items_db : list Row.t) :
  ((exists out db', create_item item items_db = (Return out, db')) \/
   create_item item items_db = (Raise DuplicateKey, items_db)) /\
  ((exists out db', get_item item_id items_db = (Return out, db')) \/
   get_item item_id items_db = (Raise NotFound, items_db)) /\
  ((exists out db', update_item item_id item items_db = (Return out, db')) \/
   update_item item_id item items_db = (Raise NotFound, items_db)) /\
  ((exists out db', delete_item item_id items_db = (Return out, db')) \/
   delete_item item_id items_db = (Raise NotFound, items_db)).
Proof.
  split.
  { destruct (scan_cases (Item.id item) items_db)
      as [Habs | (pre & r & post & -> & Hpre & Hr)].
    - left. rewrite create_item_fresh by assumption. eauto.
    - right. apply create_item_taken. rewrite <- Hr. apply stored_middle. }
  first_or_absent item_id items_db.
  - rewrite get_item_absent, update_item_absent, delete_item_absent
      by assumption. auto.
  - rewrite get_item_first, update_item_first, delete_item_first
      by assumption. repeat split; left; eauto.
Qed.

(** ** The invariant that does hold *)

(** X2. Starting from the empty list, any sequence of creations, updates and
    deletions in which every update carries in its body the [id] of its path
    ends in a list with at most one row per [id]. *)
Theorem X2_unique_ids_without_rekeying (reqs : list request) :
  Forall keyed reqs -> unique_ids (run reqs []).
Proof. apply unique_ids_run_keyed. Qed.

Lemma X2_unique_ids_without_rekeying_witness :
  unique_ids (run [Create pen; Create book; Update 2 book; Delete 1] []).
Proof.
  apply X2_unique_ids_without_rekeying. repeat constructor.
Defined.

(** X3. In a state with at most one row per [id], a successful
    [delete_item item_id] leaves a list one row shorter in which
    [get_item item_id] raises NotFound and [create_item] of an item with
    that [id] succeeds again. *)
Theorem X3_delete_frees_id item_id item (items_db : list Row.t) out items_db' :
  unique_ids items_db ->
  Item.id item = item_id ->
  delete_item item_id items_db = (Return out, items_db') ->
  S (length items_db') = length items_db /\
  get_item item_id items_db' = (Raise NotFound, items_db') /\
  create_item item items_db' = (Return item, items_db' ++ [dict item]).
Proof.
  intros Hu Hid Hdel. split; [by eapply delete_item_length|].
  pose proof (delete_then_get_unique _ _ _ _ Hu Hdel) as Hget.
  split; [assumption|]. apply create_item_fresh. rewrite Hid.
  apply (scan_None item_id 0%nat). unfold get_item in Hget.
  by destruct (scan item_id 0 items_db') as [[i r]|].
Qed.

Lemma X3_delete_frees_id_witness :
  S (length [dict book]) = length [dict pen; dict book] /\
  get_item 1 [dict book] = (Raise NotFound, [dict book]) /\
  create_item rekeyed_book [dict book]
  = (Return rekeyed_book, [dict book] ++ [dict rekeyed_book]).
Proof.
  apply (X3_delete_frees_id 1 rekeyed_book [dict pen; dict book]
           deleted_message [dict book]).
  - apply unique_ids_NoDup. simpl. apply NoDup_cons. split.
    + rewrite list_elem_of_singleton. discriminate.
    + apply NoDup_singleton.
  - reflexivity.
  - reflexivity.
Defined.

(** ** Sizes *)

Lemma serve_length req items_db :
  (length (serve req items_db) <= length items_db + creates [req])%nat.
Proof.
  destruct req as [item|item_id X|item_id]; simpl.
  - destruct (scan_cases (Item.id item) items_db)
      as [Habs | (pre & r & post & -> & Hpre & Hr)].
    + rewrite create_item_fresh by assumption. simpl.
      rewrite length_app. simpl. lia.
    + rewrite create_item_taken; [simpl; lia|].
      rewrite <- Hr. apply stored_middle.
  - first_or_absent item_id items_db.
    + rewrite update_item_absent by assumption. simpl. lia.
    + rewrite update_item_first by assumption. simpl.
      rewrite !length_app. simpl. lia.
  - first_or_absent item_id items_db.
    + rewrite delete_item_absent by assumption. simpl. lia.
    + rewrite delete_item_first by assumption. simpl.
      rewrite !length_app. simpl. lia.
Qed.

Lemma run_length reqs : forall items_db,
  (length (run reqs items_db) <= length items_db + creates reqs)%nat.
Proof.
  induction reqs as [|req reqs IH]; intros items_db.
  - simpl. lia.
  - rewrite run_cons. specialize (IH (serve req items_db)).
    pose proof (serve_length req items_db) as Hs.
    destruct req; simpl in *; lia.
Qed.

(** X4. [update_item] never changes the number of stored rows, whether it
    succeeds or raises, and whatever [id] its body carries. *)
Theorem X4_update_keeps_length item_id X (items_db : list Row.t) :
  length (update_item item_id X items_db).2 = length items_db.
Proof.
  first_or_absent item_id items_db.
  - by rewrite update_item_absent.
  - rewrite update_item_first by assumption. simpl.
    rewrite !length_app. reflexivity.
Qed.

(** X5. After any sequence of creations, updates and deletions served from
    the empty list, the list holds at most as many rows as there were
    creations in the sequence. *)
Theorem X5_rows_bounded_by_creates (reqs : list request) :
  (length (run reqs []) <= creates reqs)%nat.
Proof. apply (run_length reqs []). Qed.

(** ** Composition of two requests *)

(** X6. After [create_item item] has been served, whether it returned or
    raised, the [id] of [item] is stored: [get_item] on it returns a row,
    and any further [create_item] with that [id] raises DuplicateKey and
    leaves the list as it is. *)
Theorem X6_create_then_create item item' (items_db : list Row.t) :
  Item.id item' = Item.id item ->
  let items_db' := (create_item item items_db).2 in
  (exists row, get_item (Item.id item) items_db' = (Return row, items_db') /\
               Row.id row = Item.id item) /\
  create_item item' items_db' = (Raise DuplicateKey, items_db').
Proof.
  intros Hid items_db'.
  assert (Hs : stored (Item.id item) items_db').
  { subst items_db'.
    destruct (scan_cases (Item.id item) items_db)
      as [Habs | (pre & r & post & -> & Hpre & Hr)].
    - rewrite create_item_fresh by assumption. simpl.
      apply (stored_middle items_db (dict item) []).
    - rewrite create_item_taken by (rewrite <- Hr; apply stored_middle).
      simpl. rewrite <- Hr. apply stored_middle. }
  split.
  - destruct (first_match_split _ _ Hs) as (pre & r & post & -> & Hpre & Hr).
    exists r. split; [by apply get_item_first | assumption].
  - apply create_item_taken. by rewrite Hid.
Qed.

Lemma X6_create_then_create_witness :
  (exists row, get_item 1 [dict pen] = (Return row, [dict pen]) /\
               Row.id row = 1) /\
  create_item rekeyed_book [dict pen] = (Raise DuplicateKey, [dict pen]).
Proof.
  apply (X6_create_then_create pen rekeyed_book []). reflexivity.
Defined.

(** X7. Two updates of the same path [item_id] in a row, the first of which
    carries [item_id] in its body: the list afterwards is the list the
    second update alone would have left (the last write wins), and both
    ways the second update ends the same. *)
Theorem X7_update_update item_id X Y (items_db : list Row.t) :
  Item.id X = item_id ->
  update_item item_id Y (update_item item_id X items_db).2
  = update_item item_id Y items_db.
Proof.
  intros Hk. first_or_absent item_id items_db.
  - by rewrite (update_item_absent item_id items_db Habs X).
  - rewrite (update_item_first item_id pre post r Hpre Hr X). simpl.
    rewrite (update_item_first item_id pre post (dict X) Hpre Hk Y).
    by rewrite (update_item_first item_id pre post r Hpre Hr Y).
Qed.

Lemma X7_update_update_witness :
  update_item 2 book (update_item 2 (Item.mk 2 "Tome" 3.5%float None)
                        [dict pen; dict book]).2
  = update_item 2 book [dict pen; dict book].
Proof.
  apply (X7_update_update 2 (Item.mk 2 "Tome" 3.5%float None) book).
  reflexivity.
Defined.

(** X8. An update whose body carries the [id] of its path, followed by a
    deletion of that [id], ends like the deletion alone: same outcome, same
    list. *)
Theorem X8_update_delete item_id X (items_db : list Row.t) :
  Item.id X = item_id ->
  delete_item item_id (update_item item_id X items_db).2
  = delete_item item_id items_db.
Proof.
  intros Hk. first_or_absent item_id items_db.
  - by rewrite (update_item_absent item_id items_db Habs X).
  - rewrite (update_item_first item_id pre post r Hpre Hr X). simpl.
    rewrite (delete_item_first item_id pre post (dict X) Hpre Hk).
    by rewrite (delete_item_first item_id pre post r Hpre Hr).
Qed.

Lemma X8_update_delete_witness :
  delete_item 2 (update_item 2 (Item.mk 2 "Tome" 3.5%float None)
                   [dict pen; dict book]).2
  = delete_item 2 [dict pen; dict book].
Proof.
  apply (X8_update_delete 2 (Item.mk 2 "Tome" 3.5%float None)).
  reflexivity.
Defined.

(** ** Frame *)

(** X9. A creation, update or deletion that does not name the id [j]
    (neither in its path nor in its body) does not change what [get_item j]
    ends with: the same row, or NotFound as before. This holds in every
    state, also with several rows under one [id]. *)
Theorem X9_other_ids_untouched req j (items_db : list Row.t) :
  ~ names_id req j ->
  (get_item j (serve req items_db)).1 = (get_item j items_db).1.
Proof.
  destruct req as [item|item_id X|item_id]; simpl; intros Hn.
  - destruct (scan_cases (Item.id item) items_db)
      as [Habs | (pre & r & post & -> & Hpre & Hr)].
    + rewrite create_item_fresh by assumption. simpl.
      rewrite get_item_skip by (simpl; exact Hn). by rewrite app_nil_r.
    + rewrite create_item_taken; [reflexivity|].
      rewrite <- Hr. apply stored_middle.
  - first_or_absent item_id items_db.
    + by rewrite update_item_absent.
    + rewrite update_item_first by assumption. simpl.
      rewrite !get_item_skip; [reflexivity| |]; simpl; intros E; apply Hn;
        [left; congruence | right; assumption].
  - first_or_absent item_id items_db.
    + by rewrite delete_item_absent.
    + rewrite delete_item_first by assumption. simpl.
      rewrite get_item_skip; [reflexivity|]. congruence.
Qed.

Lemma X9_other_ids_untouched_witness :
  (get_item 1 (serve (Delete 2) [dict book; dict pen])).1
  = (get_item 1 [dict book; dict pen]).1.
Proof.
  apply (X9_other_ids_untouched (Delete 2) 1). simpl. discriminate.
Defined.

(** ** Lookup *)



(** X11. In a state with at most one row per [id], every stored row is the
    one [get_item] returns for its [id]. *)
Theorem X11_unique_rows_retrievable (items_db : list Row.t) row :
  unique_ids items_db ->
  row ∈ items_db ->
  get_item (Row.id row) items_db = (Return row, items_db).
Proof.
  intros Hu Hin. apply list_elem_of_split in Hin as (pre & post & ->).
  apply get_item_first; [|reflexivity].
  by destruct (unique_ids_middle _ _ _ Hu).
Qed.

Lemma X11_unique_rows_retrievable_witness :
  get_item (Row.id (dict book)) [dict pen; dict book]
  = (Return (dict book), [dict pen; dict book]).
Proof.
  apply X11_unique_rows_retrievable.
  - apply unique_ids_NoDup. simpl. apply NoDup_cons. split.
    + rewrite list_elem_of_singleton. discriminate.
    + apply NoDup_singleton.
  - right. left.
Defined.

(** ** Updates and the ids *)

(** X12. An update whose body carries the [id] of its path changes no [id]
    and no position: the column of ids reads the same before and after,
    whether the update succeeds or raises. *)
Theorem X12_keyed_update_keeps_ids item_id X (items_db : list Row.t) :
  Item.id X = item_id ->
  Row.id <$> (update_item item_id X items_db).2 = Row.id <$> items_db.
Proof.
  intros Hk. first_or_absent item_id items_db.
  - by rewrite update_item_absent.
  - rewrite update_item_first by assumption. simpl.
    rewrite !fmap_app, !fmap_cons. simpl. congruence.
Qed.

Lemma X12_keyed_update_keeps_ids_witness :
  Row.id <$> (update_item 2 (Item.mk 2 "Tome" 3.5%float None)
                [dict pen; dict book]).2
  = Row.id <$> [dict pen; dict book].
Proof.
  apply (X12_keyed_update_keeps_ids 2 (Item.mk 2 "Tome" 3.5%float None)).
  reflexivity.
Defined.

Lemma NoDup_replace_middle (P Q : list Z) a x :
  NoDup (P ++ a :: Q) -> x <> a ->
  NoDup (P ++ x :: Q) <-> x ∉ P ++ a :: Q.
Proof.
  rewrite !NoDup_app, !NoDup_cons, elem_of_app, elem_of_cons.
  intros (HP & Hdis & Ha & HQ) Hne. split.
  - intros (_ & Hdis' & Hx & _) [HinP | [Heq | HinQ]];
      [|contradiction|contradiction].
    apply (Hdis' x HinP). by left.
  - intros H. split; [assumption|]. split; [|split; [|assumption]].
    + intros y Hy Hin. apply elem_of_cons in Hin as [->|HinQ].
      * apply H. by left.
      * apply (Hdis y Hy). by right.
    + intros HinQ. apply H. right. by right.
Qed.

(** X13. Which rekeying updates break uniqueness: in a state with at most
    one row per [id], a successful update whose body carries another [id]
    than its path leaves at most one row per [id] exactly when the [id] of
    the body was not stored before. *)
Theorem X13_rekeying_update item_id X (items_db : list Row.t) out items_db' :
  unique_ids items_db ->
  Item.id X <> item_id ->
  update_item item_id X items_db = (Return out, items_db') ->
  unique_ids items_db' <-> ~ stored (Item.id X) items_db.
Proof.
  intros Hu Hne. first_or_absent item_id items_db.
  - by rewrite update_item_absent.
  - rewrite update_item_first by assumption. intros [= _ <-].
    rewrite <- no_match_alt, no_match_ids, !unique_ids_NoDup.
    apply unique_ids_NoDup in Hu.
    rewrite !fmap_app, !fmap_cons in *. simpl.
    apply NoDup_replace_middle; [assumption | congruence].
Qed.

Lemma X13_rekeying_update_witness :
  unique_ids [dict pen; dict (Item.mk 3 "Book" 12.0%float None)]
  <-> ~ stored 3 [dict pen; dict book].
Proof.
  apply (X13_rekeying_update 2 (Item.mk 3 "Book" 12.0%float None)
           [dict pen; dict book] (Item.mk 3 "Book" 12.0%float None)).
  - apply unique_ids_NoDup. simpl. apply NoDup_cons. split.
    + rewrite list_elem_of_singleton. discriminate.
    + apply NoDup_singleton.
  - discriminate.
  - reflexivity.
Defined.

(** ** The reachable states *)

Lemma dict_item_of_row r : dict (item_of_row r) = r.
Proof. by destruct r. Qed.

Lemma run_app reqs1 reqs2 items_db :
  run (reqs1 ++ reqs2) items_db = run reqs2 (run reqs1 items_db).
Proof. unfold run. by rewrite foldl_app. Qed.

Lemma below_no_match start rows :
  Forall (fun r => Row.id r < start) rows -> no_match start rows.
Proof.
  intros H. eapply Forall_impl; [exact H|]. simpl. intros r Hr. lia.
Qed.

Lemma fresh_base_above rows :
  Forall (fun r => Row.id r < fresh_base rows) rows.
Proof.
  unfold fresh_base. induction rows as [|r rows IH]; simpl.
  - constructor.
  - constructor; [lia|]. eapply Forall_impl; [exact IH|].
    simpl. intros x Hx. lia.
Qed.

Lemma run_placeholders n : forall start items_db,
  Forall (fun r => Row.id r < start) items_db ->
  run (Create <$> placeholders start n) items_db
  = items_db ++ (dict <$> placeholders start n).
Proof.
  induction n as [|n IH]; intros start items_db Hlow.
  - simpl. by rewrite app_nil_r.
  - cbn [placeholders]. rewrite !fmap_cons, run_cons. cbn [serve].
    rewrite create_item_fresh by (simpl; by apply below_no_match).
    cbn [snd]. rewrite IH.
    + by rewrite <- app_assoc.
    + apply Forall_app. split.
      * eapply Forall_impl; [exact Hlow|]. simpl. intros x Hx. lia.
      * repeat constructor. simpl. lia.
Qed.

Lemma run_updates_from todo : forall start done,
  Forall (fun r => Row.id r < start) done ->
  Forall (fun r => Row.id r < start) todo ->
  run (updates_from start todo)
      (done ++ (dict <$> placeholders start (length todo)))
  = done ++ todo.
Proof.
  induction todo as [|r todo IH]; intros start done Hdone Htodo.
  - reflexivity.
  - cbn [updates_from length placeholders]. rewrite fmap_cons, run_cons.
    cbn [serve].
    rewrite update_item_first; [|by apply below_no_match|reflexivity].
    cbn [snd]. rewrite dict_item_of_row.
    inversion Htodo as [|? ? Hr Hrest]; subst.
    rewrite (cons_middle r done), app_assoc. rewrite IH.
    + by rewrite <- app_assoc.
    + apply Forall_app. split.
      * eapply Forall_impl; [exact Hdone|]. simpl. intros x Hx. lia.
      * repeat constructor. lia.
    + eapply Forall_impl; [exact Hrest|]. simpl. intros x Hx. lia.
Qed.

Lemma run_rebuild rows : run (rebuild rows) [] = rows.
Proof.
  unfold rebuild. rewrite run_app.
  rewrite run_placeholders by constructor. simpl.
  apply (run_updates_from rows (fresh_base rows) []);
    [constructor | apply fresh_base_above].
Qed.

Lemma creates_app reqs1 reqs2 :
  creates (reqs1 ++ reqs2) = (creates reqs1 + creates reqs2)%nat.
Proof.
  induction reqs1 as [|[] reqs1 IH]; simpl; by rewrite ?IH.
Qed.

Lemma creates_placeholders n : forall start,
  creates (Create <$> placeholders start n) = n.
Proof. induction n as [|n IH]; intros start; simpl; by rewrite ?IH. Qed.

Lemma creates_updates_from rows : forall start,
  creates (updates_from start rows) = 0%nat.
Proof. induction rows as [|r rows IH]; intros start; simpl; by rewrite ?IH. Qed.

(** X14. Every list of rows, with whatever ids in whatever order and however
    often repeated, is a state the service can be brought to from the empty
    list: by as many creations as the list has rows, followed by one update
    per row. The handlers keep no invariant on the stored ids. *)
Theorem X14_every_list_reachable (rows : list Row.t) :
  run (rebuild rows) [] = rows /\
  creates (rebuild rows) = length rows /\
  reachable rows.
Proof.
  split; [apply run_rebuild|]. split.
  - unfold rebuild.
    rewrite creates_app, creates_placeholders, creates_updates_from. lia.
  - apply reachable_run. exists (rebuild rows). by rewrite run_rebuild.
Qed.
